(** * The Prospector: search endpoints, claim registry and scraper aggregation

    A shallow embedding of [backend/main.py] and of the modules under
    [scraper_service/], followed by the properties of the specification
    that are stated about them.

    Conventions of the embedding.
    - A Python [str] is a [string]; its characters are the 8-bit characters
      of [Ascii], so [lower] is the ASCII case mapping.
    - A Python [list] is a [list]; the [set] of titles kept by the Reddit
      adapter is a [gset string].
    - Code that may raise returns in the exception monad [M]; a value of
      [exn] stands for an instance of Python's [Exception] class, which is
      what the handlers of [aggregate_scrape] name.
    - The module-level list [claims_storage] is passed explicitly: every
      registry operation takes the current list and returns its response
      together with the next list.
    - What the adapters obtain from the network is a parameter ([World]). *)

From Stdlib Require Import String Ascii.
From stdpp Require Import base list strings gmap pretty.

Local Open Scope string_scope.
Local Open Scope list_scope.

(** ** Python primitives on [str] *)

Module Py.

(** [c.lower()] for one ASCII character. *)
Definition lower_ascii (c : ascii) : ascii :=
  let n := nat_of_ascii c in
  if (65 <=? n)%nat && (n <=? 90)%nat then ascii_of_nat (n + 32) else c.

(** [s.lower()] *)
Fixpoint lower (s : string) : string :=
  match s with
  | EmptyString => EmptyString
  | String c s' => String (lower_ascii c) (lower s')
  end.

(** [needle in hay] on two [str]: [needle] occurs at some offset. *)
Fixpoint contains (needle hay : string) : bool :=
  String.prefix needle hay ||
  match hay with
  | EmptyString => false
  | String _ hay' => contains needle hay'
  end.

(** [s[:n]] *)
Fixpoint slice_to (n : nat) (s : string) : string :=
  match n, s with
  | O, _ => EmptyString
  | S _, EmptyString => EmptyString
  | S n', String c s' => String c (slice_to n' s')
  end.

(** Truth value of a [str]: the empty string is falsy. *)
Definition truthy (s : string) : bool :=
  match s with
  | EmptyString => false
  | String _ _ => true
  end.

(** Truth value of a [list]: the empty list is falsy. *)
Definition truthy_list {A} (l : list A) : bool :=
  match l with
  | [] => false
  | _ :: _ => true
  end.

End Py.

(** ** Data model *)

(** The four-key dictionaries built by the adapters, and
    [class SearchResult(BaseModel)]. *)
Record Result := mkResult {
  title : string;
  description : string;
  link : string;
  source : string
}.

(** [class Claim(BaseModel)] *)
Record Claim := mkClaim {
  id : string;
  claim_title : string;
  claim_description : string;
  claim_source : string;
  claim_link : string;
  query : string;
  timestamp : string
}.

#[global] Instance Result_eq_dec : EqDecision Result.
Proof. solve_decision. Defined.

#[global] Instance Claim_eq_dec : EqDecision Claim.
Proof. solve_decision. Defined.

(** ** backend/main.py *)

Module Backend.

(** What an endpoint hands back to FastAPI: a value, or a raised
    [HTTPException(status_code, detail)]. *)
Inductive response (A : Type) : Type :=
| Ok (a : A)
| HTTPException (status_code : nat) (detail : string).
Arguments Ok {A} a.
Arguments HTTPException {A} status_code detail.

Definition DUMMY_GAMER_RESULTS : list Result :=
  [ mkResult "Hidden Indie Gem: Crystal Caves"
      "A mesmerizing puzzle-platformer with hand-drawn art. Explore underground caverns filled with mystical crystals."
      "https://itch.io/crystal-caves"
      "Itch.io";
    mkResult "Rare Steam Key: Retro Racing Championship"
      "Limited edition racing game with only 1000 copies released. Features classic 80s synthwave soundtrack."
      "https://steamcommunity.com/retro-racing"
      "Steam Community";
    mkResult "Speedrun Community: Pixel Quest Masters"
      "Active speedrunning community for the cult classic Pixel Quest. Weekly tournaments and strategy guides."
      "https://reddit.com/r/pixelquest"
      "Reddit";
    mkResult "Beta Access: Neon Knights VR"
      "Exclusive beta testing opportunity for upcoming cyberpunk VR adventure. Apply before slots fill up!"
      "https://discord.gg/neonknights"
      "Discord" ].

Definition DUMMY_HOBBYIST_RESULTS : list Result :=
  [ mkResult "Artisan Leather Working Kit"
      "Complete starter set with premium tools and exotic leather samples. Perfect for crafting wallets and belts."
      "https://etsy.com/leather-kit"
      "Etsy";
    mkResult "Woodworking Workshop: Japanese Joinery"
      "Learn traditional Japanese woodworking techniques. Master craftsman teaches 300-year-old methods."
      "https://eventbrite.com/japanese-joinery"
      "Eventbrite";
    mkResult "Rare Succulent Seeds Collection"
      "Exotic succulent varieties from South Africa. Includes growing guide and soil mix recommendations."
      "https://rareplants.shop/succulents"
      "Specialty Shop";
    mkResult "Blacksmithing Tutorial Series"
      "Complete video course on traditional blacksmithing. From basic tools to advanced decorative techniques."
      "https://youtube.com/blacksmith-master"
      "YouTube" ].

(** The condition of both list comprehensions:
    [query.lower() in result["title"].lower()
     or query.lower() in result["description"].lower()]. *)
Definition matches (query : string) (result : Result) : bool :=
  Py.contains (Py.lower query) (Py.lower (title result))
  || Py.contains (Py.lower query) (Py.lower (description result)).

(** [GET /search/gamers] *)
Definition search_gamers (query : string) : response (list Result) :=
  if negb (Py.truthy query) then
    HTTPException 400 "Query parameter is required"
  else
    let filtered_results :=
      List.filter (matches query) DUMMY_GAMER_RESULTS in
    let filtered_results :=
      if negb (Py.truthy_list filtered_results) then DUMMY_GAMER_RESULTS
      else filtered_results in
    Ok filtered_results.

(** [GET /search/hobbyists] *)
Definition search_hobbyists (query : string) : response (list Result) :=
  if negb (Py.truthy query) then
    HTTPException 400 "Query parameter is required"
  else
    let filtered_results :=
      List.filter (matches query) DUMMY_HOBBYIST_RESULTS in
    let filtered_results :=
      if negb (Py.truthy_list filtered_results) then DUMMY_HOBBYIST_RESULTS
      else filtered_results in
    Ok filtered_results.

(** *** The claim registry

    [claims_storage] is the module-level list; each operation returns
    its response and the list it leaves behind. *)

Definition claims_storage_init : list Claim := [].

(** [GET /claims] *)
Definition get_claims (claims_storage : list Claim)
  : list Claim * list Claim :=
  (claims_storage, claims_storage).

(** [POST /claims]: [claims_storage.append(claim.dict()); return claim] *)
Definition create_claim (claim : Claim) (claims_storage : list Claim)
  : Claim * list Claim :=
  (claim, claims_storage ++ [claim]).

(** [DELETE /claims/{claim_id}] *)
Definition delete_claim (claim_id : string) (claims_storage : list Claim)
  : string * list Claim :=
  let claims_storage :=
    List.filter (fun claim => negb (String.eqb (id claim) claim_id))
      claims_storage in
  ("Claim " +:+ claim_id +:+ " deleted successfully", claims_storage).

End Backend.

(** ** scraper_service/ *)

Module Scraper.

(** *** Exceptions

    An [exn] is an instance of [Exception], kept as its message. *)
Definition exn := string.

Inductive M (A : Type) : Type :=
| Return (a : A)
| Raise (e : exn).
Arguments Return {A} a.
Arguments Raise {A} e.

(** Sequencing: an exception raised by the first statement skips the
    rest.  [x ← m; k] is stdpp's notation for it. *)
#[global] Instance M_bind : MBind M := fun A B k m =>
  match m with
  | Return a => k a
  | Raise e => Raise e
  end.

(** [try: body / except Exception as e: handler e] *)
Definition try_except {A} (body : M A) (handler : exn -> M A) : M A :=
  match body with
  | Return a => Return a
  | Raise e => handler e
  end.

(** [d[key]] on a dictionary that may lack [key]. *)
Definition getitem {A} (key : string) (v : option A) : M A :=
  match v with
  | Some a => Return a
  | None => Raise ("KeyError: " +:+ key)
  end.

(** *** What the client libraries return *)

(** A [praw] submission. *)
Record Submission := mkSubmission {
  submission_title : string;
  selftext : string;
  permalink : string;
  stickied : bool
}.

(** A [tweepy] tweet. *)
Record Tweet := mkTweet {
  text : string;
  tweet_id : N
}.

(** One entry of ['items'] in GitHub's answer; [None] is an absent key,
    [Some None] for the description is JSON [null]. *)
Record Repo := mkRepo {
  name : option string;
  repo_description : option (option string);
  html_url : option string
}.

(** One entry of ['items'] in YouTube's answer, with the keys
    [snippet.title], [snippet.description] and [id.videoId]. *)
Record Item := mkItem {
  snippet_title : option string;
  snippet_description : option string;
  id_videoId : option string
}.

(** The network, as the adapters see it.
    - [reddit_search query sort limit]:
      [reddit.subreddit('all').search(query, sort=sort, limit=limit)];
    - [search_recent_tweets query max_results]: the [data] attribute of
      the answer, [None] when there is none;
    - [requests_get_json url]: the ['items'] entry of
      [requests.get(url, headers).json()], [None] when absent;
    - [youtube_search query maxResults]: the ['items'] entry of the
      executed search, [None] when absent.
    Each may raise instead. *)
Record World := mkWorld {
  reddit_search : string -> string -> nat -> M (list Submission);
  search_recent_tweets : string -> nat -> M (option (list Tweet));
  requests_get_json : string -> M (option (list Repo));
  youtube_search : string -> nat -> M (option (list Item))
}.

(** *** reddit_scraper.py *)

(** The dictionary appended for one submission. *)
Definition reddit_result (submission : Submission) : Result :=
  {| title := submission_title submission;
     description :=
       if Py.truthy (selftext submission)
       then Py.slice_to 200 (selftext submission)
       else submission_title submission;
     link := "https://reddit.com" +:+ permalink submission;
     source := "Reddit" |}.

(** The inner [for submission in ...] loop. *)
Fixpoint reddit_inner (submissions : list Submission) (results : list Result)
  : list Result :=
  match submissions with
  | [] => results
  | submission :: rest =>
      reddit_inner rest
        (if negb (stickied submission)
         then results ++ [reddit_result submission]
         else results)
  end.

(** The outer [for sort in [...]] loop. *)
Fixpoint reddit_outer (search : string -> M (list Submission))
    (sorts : list string) (results : list Result) : M (list Result) :=
  match sorts with
  | [] => Return results
  | sort :: rest =>
      submissions ← search sort;
      reddit_outer search rest (reddit_inner submissions results)
  end.

(** The loop under [# Deduplicate by title]. *)
Fixpoint dedup_loop (results : list Result) (seen : gset string)
    (deduped : list Result) : list Result :=
  match results with
  | [] => deduped
  | r :: rest =>
      if decide (title r ∈ seen)
      then dedup_loop rest seen deduped
      else dedup_loop rest ({[title r]} ∪ seen) (deduped ++ [r])
  end.

Definition scrape_reddit (w : World) (query : string) (limit : nat)
  : M (list Result) :=
  results ← reddit_outer (fun sort => reddit_search w query sort limit)
              ["relevance"; "new"; "hot"; "top"] [];
  let deduped := dedup_loop results ∅ [] in
  Return (take limit deduped).

(** *** twitter_scraper.py *)

Definition twitter_result (tweet : Tweet) : Result :=
  {| title := Py.slice_to 80 (text tweet);
     description := text tweet;
     link := "https://twitter.com/i/web/status/" +:+ pretty (tweet_id tweet);
     source := "Twitter/X" |}.

Fixpoint twitter_loop (tweets : list Tweet) (results : list Result)
  : list Result :=
  match tweets with
  | [] => results
  | tweet :: rest => twitter_loop rest (results ++ [twitter_result tweet])
  end.

Definition scrape_twitter (w : World) (query : string) (limit : nat)
  : M (list Result) :=
  tweets ← search_recent_tweets w query limit;
  Return (twitter_loop (default [] tweets) []).

(** *** github_scraper.py *)

Definition github_url (query : string) (limit : nat) : string :=
  "https://api.github.com/search/repositories?q=" +:+ query
  +:+ "&sort=stars&order=desc&per_page=" +:+ pretty limit.

Definition github_result (repo : Repo) : M Result :=
  t ← getitem "name" (name repo);
  d ← getitem "description" (repo_description repo);
  l ← getitem "html_url" (html_url repo);
  Return {| title := t;
            description :=
              match d with
              | Some s => if Py.truthy s then s else ""
              | None => ""
              end;
            link := l;
            source := "GitHub" |}.

Fixpoint github_loop (items : list Repo) (results : list Result)
  : M (list Result) :=
  match items with
  | [] => Return results
  | repo :: rest =>
      r ← github_result repo;
      github_loop rest (results ++ [r])
  end.

Definition scrape_github (w : World) (query : string) (limit : nat)
  : M (list Result) :=
  items ← requests_get_json w (github_url query limit);
  github_loop (default [] items) [].

(** *** etsy_scraper.py *)

Definition scrape_etsy (query : string) (limit : nat) : M (list Result) :=
  let url := "https://www.etsy.com/search?q=" +:+ query in
  Return [ {| title := "Unique item for " +:+ query;
              description := "Handmade treasure from Etsy.";
              link := url;
              source := "Etsy" |} ].

(** *** youtube_scraper.py *)

Definition youtube_result (item : Item) : M Result :=
  t ← getitem "title" (snippet_title item);
  d ← getitem "description" (snippet_description item);
  v ← getitem "videoId" (id_videoId item);
  Return {| title := t;
            description := d;
            link := "https://youtube.com/watch?v=" +:+ v;
            source := "YouTube" |}.

Fixpoint youtube_loop (items : list Item) (results : list Result)
  : M (list Result) :=
  match items with
  | [] => Return results
  | item :: rest =>
      r ← youtube_result item;
      youtube_loop rest (results ++ [r])
  end.

Definition scrape_youtube (w : World) (query : string) (limit : nat)
  : M (list Result) :=
  items ← youtube_search w query limit;
  youtube_loop (default [] items) [].

(** *** scraper.py *)


(** *** aggregate_scraper.py *)

(** The five module-level names after the guarded imports: the adapter,
    or [None] when its import failed. *)
Record Scrapers := mkScrapers {
  imported_reddit : option (string -> M (list Result));
  imported_twitter : option (string -> M (list Result));
  imported_github : option (string -> M (list Result));
  imported_etsy : option (string -> M (list Result));
  imported_youtube : option (string -> M (list Result))
}.

(** Which of the five imports succeeded. *)
Record Imports := mkImports {
  reddit_imported : bool;
  twitter_imported : bool;
  github_imported : bool;
  etsy_imported : bool;
  youtube_imported : bool
}.

(** The module-level names in a given world; each adapter is called with
    its default [limit]. *)
Definition import_scrapers (w : World) (i : Imports) : Scrapers :=
  {| imported_reddit :=
       if reddit_imported i then Some (fun q => scrape_reddit w q 30)
       else None;
     imported_twitter :=
       if twitter_imported i then Some (fun q => scrape_twitter w q 5)
       else None;
     imported_github :=
       if github_imported i then Some (fun q => scrape_github w q 5)
       else None;
     imported_etsy :=
       if etsy_imported i then Some (fun q => scrape_etsy q 5) else None;
     imported_youtube :=
       if youtube_imported i then Some (fun q => scrape_youtube w q 5)
       else None |}.

(** One block
    [if scrape_x: try: results += scrape_x(query) except Exception as e: print(..., file=sys.stderr)].
    The state is [results] and the lines written to [stderr]; of a
    diagnostic line the traceback text is left out. *)
Definition guarded_call (module_name : string)
    (scraper : option (string -> M (list Result))) (query : string)
    (st : list Result * list string) : M (list Result * list string) :=
  match scraper with
  | None => Return st
  | Some scrape =>
      try_except
        (r ← scrape query; Return (st.1 ++ r, st.2))
        (fun e =>
           Return (st.1,
                   st.2 ++ ["[ERROR] " +:+ module_name +:+ " failed: " +:+ e]))
  end.

Definition aggregate_scrape (g : Scrapers) (query : string)
  : M (list Result * list string) :=
  st ← guarded_call "reddit_scraper" (imported_reddit g) query ([], []);
  st ← guarded_call "twitter_scraper" (imported_twitter g) query st;
  st ← guarded_call "github_scraper" (imported_github g) query st;
  st ← guarded_call "etsy_scraper" (imported_etsy g) query st;
  st ← guarded_call "youtube_scraper" (imported_youtube g) query st;
  Return st.

(** What one adapter contributes to [results]: nothing when it is absent
    or raises. *)
Definition contribution (scraper : option (string -> M (list Result)))
    (query : string) : list Result :=
  match scraper with
  | Some scrape =>
      match scrape query with
      | Return r => r
      | Raise _ => []
      end
  | None => []
  end.

End Scraper.

(** ** Vocabulary of the statements *)

Import Scraper.

(** [needle] occurs in [hay]. *)
Definition substring_of (needle hay : string) : Prop :=
  ∃ pre post, hay = pre +:+ needle +:+ post.

(** The query, case-insensitively, is a substring of the title or of the
    description. *)
Definition mentions (query : string) (r : Result) : Prop :=
  substring_of (Py.lower query) (Py.lower (title r))
  ∨ substring_of (Py.lower query) (Py.lower (description r)).

(** The candidates kept by a filter, or all of them when it keeps none. *)
Definition kept_or_all (kept candidates : list Result) : list Result :=
  match kept with
  | [] => candidates
  | _ :: _ => kept
  end.

(** The line an adapter leaves on [stderr]: one when it raises, none
    otherwise. *)
Definition diagnostic (module_name : string)
    (scraper : option (string -> M (list Result))) (query : string)
  : list string :=
  match scraper with
  | Some scrape =>
      match scrape query with
      | Return _ => []
      | Raise e => ["[ERROR] " +:+ module_name +:+ " failed: " +:+ e]
      end
  | None => []
  end.

(** [r] is the first element of [results] with its title. *)
Definition first_with_title (results : list Result) (r : Result) : Prop :=
  ∃ i, results !! i = Some r
       ∧ ∀ j r', (j < i)%nat → results !! j = Some r' → title r' ≠ title r.

(** ** Worlds used as examples *)

Definition all_imported : Imports := mkImports true true true true true.

(** Nobody has anything to say. *)
Definition quiet_world : World :=
  mkWorld (fun _ _ _ => Return []) (fun _ _ => Return None)
    (fun _ => Return None) (fun _ _ => Return None).

(** GitHub knows two repositories of the same name, under two owners; the
    first has no description. *)
Definition same_name_world : World :=
  mkWorld (fun _ _ _ => Return []) (fun _ _ => Return None)
    (fun _ =>
       Return (Some [ mkRepo (Some "prospector") (Some None)
                        (Some "https://github.com/alice/prospector");
                      mkRepo (Some "prospector") (Some (Some "Gold finder"))
                        (Some "https://github.com/bob/prospector") ]))
    (fun _ _ => Return None).

(** A text of 201 characters. *)
Definition long_text : string := string_of_list_ascii (replicate 201 "a"%char).

(** Twitter answers with one tweet, of 201 characters. *)
Definition long_tweet_world : World :=
  mkWorld (fun _ _ _ => Return [])
    (fun _ _ => Return (Some [mkTweet long_text 7]))
    (fun _ => Return None) (fun _ _ => Return None).

(** The scenario of the specification: Reddit answers the first search
    with the titles A, B, B; every request to GitHub times out. *)
Definition github_down_world : World :=
  mkWorld
    (fun _ sort _ =>
       if String.eqb sort "relevance"
       then Return [ mkSubmission "A" "" "/r/a" false;
                     mkSubmission "B" "" "/r/b1" false;
                     mkSubmission "B" "" "/r/b2" false ]
       else Return [])
    (fun _ _ => Return None)
    (fun _ => Raise "timeout")
    (fun _ _ => Return None).

(** ** Further vocabulary and worlds *)

(** [POST /claims] for each claim of a list, in turn. *)
Definition create_all (claims claims_storage : list Claim) : list Claim :=
  foldl (fun st claim => (Backend.create_claim claim st).2)
    claims_storage claims.

(** An entry of GitHub's answer with its three keys. *)
Definition repo_complete (repo : Repo) : Prop :=
  is_Some (name repo) ∧ is_Some (repo_description repo)
  ∧ is_Some (html_url repo).


(** The values the five adapters write under ['source']. *)
Definition adapter_sources : list string :=
  ["Reddit"; "Twitter/X"; "GitHub"; "Etsy"; "YouTube"].

(** The four searches of the Reddit adapter, in its order. *)
Definition reddit_sorts : list string := ["relevance"; "new"; "hot"; "top"].

(** GitHub answers with two repositories; the second lacks its
    ['html_url']. *)
Definition missing_key_world : World :=
  mkWorld (fun _ _ _ => Return []) (fun _ _ => Return None)
    (fun _ =>
       Return (Some [ mkRepo (Some "prospector") (Some None)
                        (Some "https://github.com/alice/prospector");
                      mkRepo (Some "nugget") (Some (Some "Gold")) None ]))
    (fun _ _ => Return None).

(** Reddit answers every search with a pinned post and an ordinary one,
    except the search by ['hot'], which fails. *)
Definition hot_down_world : World :=
  mkWorld
    (fun _ sort _ =>
       if String.eqb sort "hot" then Raise "503"
       else Return [ mkSubmission "Rules" "Read me" "/r/rules" true;
                     mkSubmission "Gold" "" "/r/gold" false ])
    (fun _ _ => Return None) (fun _ => Return None) (fun _ _ => Return None).

(** Reddit answers every search with a pinned post and an ordinary one. *)
Definition pinned_world : World :=
  mkWorld
    (fun _ _ _ =>
       Return [ mkSubmission "Rules" "Read me" "/r/rules" true;
                mkSubmission "Gold" "" "/r/gold" false ])
    (fun _ _ => Return None) (fun _ => Return None) (fun _ _ => Return None).

(** * Properties *)

Import Backend.

(** ** Strings *)

Section PyFacts.

Lemma append_cons (c : ascii) (s t : string) :
  String c s +:+ t = String c (s +:+ t).
Proof. reflexivity. Qed.

Lemma prefix_spec (s1 s2 : string) :
  String.prefix s1 s2 = true ↔ ∃ post, s2 = s1 +:+ post.
Proof.
  revert s2; induction s1 as [|a s1 IH]; intros [|b s2]; simpl.
  - split; [intros _; by exists "" | reflexivity].
  - split; [intros _; by eexists | reflexivity].
  - split; [discriminate | intros [? ?]; discriminate].
  - destruct (ascii_dec a b) as [->|Hab].
    + rewrite IH. split; intros [post Hp]; exists post;
        [by rewrite Hp | by injection Hp].
    + split; [discriminate | intros [post Hp]; by injection Hp].
Qed.

(** [needle in hay] holds exactly when [hay] is [needle] between a prefix
    and a suffix. *)
Lemma contains_spec (needle hay : string) :
  Py.contains needle hay = true ↔ ∃ pre post, hay = pre +:+ needle +:+ post.
Proof.
  induction hay as [|c hay IH]; cbn [Py.contains].
  - rewrite orb_false_r, prefix_spec. split.
    + intros [post Hp]. by exists "", post.
    + intros [pre [post Hp]]. destruct pre; [by exists post | done].
  - rewrite orb_true_iff, prefix_spec, IH. split.
    + intros [[post Hp] | (pre & post & Hp)].
      * by exists "", post.
      * exists (String c pre), post. by rewrite Hp.
    + intros (pre & post & Hp). destruct pre as [|c' pre]; simpl in Hp.
      * left. by exists post.
      * right. exists pre, post. by injection Hp.
Qed.

Lemma truthy_spec (s : string) : Py.truthy s = true ↔ s ≠ "".
Proof. by destruct s. Qed.

Lemma slice_to_length (n : nat) (s : string) :
  String.length (Py.slice_to n s) = n `min` String.length s.
Proof.
  revert s; induction n as [|n IH]; intros [|c s]; simpl; auto.
Qed.

Lemma slice_to_prefix (n : nat) (s : string) :
  ∃ rest, s = Py.slice_to n s +:+ rest.
Proof.
  revert s; induction n as [|n IH]; intros s; simpl.
  - by exists s.
  - destruct s as [|c s]; [by exists ""|].
    destruct (IH s) as [rest Hr]. exists rest.
    by rewrite append_cons, <- Hr.
Qed.

End PyFacts.

(** ** The claim registry *)

Section Registry.

Implicit Types (claim c : Claim) (claims_storage st : list Claim).

Lemma delete_claim_storage (claim_id : string) st :
  (delete_claim claim_id st).2 = filter (λ c, id c ≠ claim_id) st.
Proof.
  unfold delete_claim; simpl.
  induction st as [|c st IH]; [done|]; simpl.
  rewrite filter_cons, IH.
  destruct (String.eqb_spec (id c) claim_id); simpl;
    by destruct (decide (id c ≠ claim_id)).
Qed.

Lemma count_occ_filter_keep (P : Claim → Prop) `{!∀ c, Decision (P c)} c st :
  P c →
  count_occ Claim_eq_dec (filter P st) c = count_occ Claim_eq_dec st c.
Proof.
  intros HP. induction st as [|c' st IH]; [done|].
  rewrite filter_cons. destruct (decide (P c')) as [HP'|HP']; simpl.
  - by rewrite IH.
  - destruct (Claim_eq_dec c' c) as [->|]; [done | apply IH].
Qed.

End Registry.

Section RegistryClaims.

Implicit Types (claim c : Claim) (claims_storage st : list Claim).

(** C6. [create_claim] checks nothing about [id]: after creating two
    different claims that carry the same [id], the listing is the old
    listing followed by both of them, so both entries are present. *)
Theorem create_claim_duplicate_ids_coexist st (c1 c2 : Claim) :
  id c1 = id c2 →
  c1 ≠ c2 →
  let st1 := (create_claim c1 st).2 in
  let st2 := (create_claim c2 st1).2 in
  let listing := (get_claims st2).1 in
  listing = st ++ [c1; c2]
  ∧ listing !! length st = Some c1
  ∧ listing !! S (length st) = Some c2
  ∧ c1 ∈ listing ∧ c2 ∈ listing
  ∧ length listing = S (S (length st)).
Proof.
  intros _ _. cbv zeta. unfold get_claims, create_claim. cbn [fst snd].
  assert (Heq : (st ++ [c1]) ++ [c2] = st ++ [c1; c2])
    by (by rewrite <- app_assoc).
  rewrite Heq. split_and!.
  - done.
  - by apply list_lookup_middle.
  - change (st ++ [c1; c2]) with (st ++ [c1] ++ [c2]).
    rewrite app_assoc. apply list_lookup_middle.
    rewrite length_app. simpl. lia.
  - set_solver.
  - set_solver.
  - rewrite length_app. simpl. lia.
Qed.

(** The scenario of the specification: id "1" with title "X", then id "1"
    with title "Y", on the empty registry. *)
Lemma create_claim_duplicate_ids_coexist_witness :
  let x := mkClaim "1" "X" "" "" "" "" "" in
  let y := mkClaim "1" "Y" "" "" "" "" "" in
  let listing :=
    (get_claims (create_claim y (create_claim x claims_storage_init).2).2).1 in
  listing = [x; y]
  ∧ listing !! 0%nat = Some x
  ∧ listing !! 1%nat = Some y
  ∧ x ∈ listing ∧ y ∈ listing
  ∧ length listing = 2%nat.
Proof.
  intros x y.
  apply (create_claim_duplicate_ids_coexist claims_storage_init x y).
  - reflexivity.
  - discriminate.
Defined.

(** C7, as stated, fails on a registry that already holds an equal claim:
    creating it again makes the listing contain it twice. *)
Lemma create_claim_not_exactly_once :
  let c := mkClaim "1" "X" "d" "Reddit" "https://reddit.com/x" "q" "t" in
  let st := (create_claim c claims_storage_init).2 in
  count_occ Claim_eq_dec (get_claims (create_claim c st).2).1 c = 2%nat
  ∧ ¬ count_occ Claim_eq_dec (get_claims (create_claim c st).2).1 c = 1%nat.
Proof. split; [reflexivity | discriminate]. Qed.

(** C7, amended. [create_claim] returns the claim unchanged and appends
    it; the listing that follows is the stored claims in insertion order,
    with the new claim last. The claim occurs in it once more than before,
    hence exactly once when no equal claim was stored. *)
Theorem create_claim_appends claim claims_storage :
  let st' := (create_claim claim claims_storage).2 in
  (create_claim claim claims_storage).1 = claim
  ∧ (get_claims st').1 = claims_storage ++ [claim]
  ∧ (get_claims st').2 = st'
  ∧ last (get_claims st').1 = Some claim
  ∧ count_occ Claim_eq_dec (get_claims st').1 claim
    = S (count_occ Claim_eq_dec claims_storage claim)
  ∧ (claim ∉ claims_storage →
     count_occ Claim_eq_dec (get_claims st').1 claim = 1%nat).
Proof.
  simpl. split_and!; try done.
  - by rewrite last_snoc.
  - rewrite count_occ_app. simpl.
    destruct (Claim_eq_dec claim claim); [lia | done].
  - intros Hnot. rewrite count_occ_app. simpl.
    destruct (Claim_eq_dec claim claim); [|done].
    rewrite (proj1 (count_occ_not_In Claim_eq_dec _ _)); [done|].
    by rewrite <- list_elem_of_In.
Qed.

Lemma create_claim_appends_witness :
  let c := mkClaim "1" "X" "d" "Reddit" "https://reddit.com/x" "q" "t" in
  let d := mkClaim "2" "Y" "" "GitHub" "https://github.com/y" "q" "t" in
  count_occ Claim_eq_dec (get_claims (create_claim c [d]).2).1 c = 1%nat.
Proof.
  intros c d.
  apply (create_claim_appends c [d]).
  intros Hin. apply list_elem_of_In in Hin. simpl in Hin.
  destruct Hin as [Hin|[]]. discriminate Hin.
Defined.

(** C8. [delete_claim] leaves no claim with the given [id], keeps every
    other claim with its multiplicity and in its relative order, answers
    with its message in every case, and changes nothing when no stored
    claim has that [id]. *)
Theorem delete_claim_frame (claim_id : string) st :
  let st' := (delete_claim claim_id st).2 in
  (∀ c, c ∈ st' ↔ c ∈ st ∧ id c ≠ claim_id)
  ∧ (∀ c, id c ≠ claim_id →
       count_occ Claim_eq_dec st' c = count_occ Claim_eq_dec st c)
  ∧ st' `sublist_of` st
  ∧ st' = filter (λ c, id c ≠ claim_id) st
  ∧ ((∀ c, c ∈ st → id c ≠ claim_id) → st' = st)
  ∧ (delete_claim claim_id st).1
    = "Claim " +:+ claim_id +:+ " deleted successfully".
Proof.
  intros st'. subst st'. rewrite delete_claim_storage. split_and!.
  - intros c. rewrite list_elem_of_filter. tauto.
  - intros c Hc. by apply count_occ_filter_keep.
  - apply sublist_filter.
  - done.
  - intros Hall. induction st as [|c st IH]; [done|].
    rewrite filter_cons, decide_True by (apply Hall; left).
    f_equal. apply IH. intros c' Hc'. apply Hall. by right.
  - done.
Qed.

Lemma delete_claim_frame_witness :
  let c := mkClaim "1" "X" "d" "Reddit" "https://reddit.com/x" "q" "t" in
  let d := mkClaim "2" "Y" "" "GitHub" "https://github.com/y" "q" "t" in
  (delete_claim "3" [c; d; c]).2 = [c; d; c]
  ∧ (delete_claim "1" [c; d; c]).2 = [d].
Proof.
  intros c d. split.
  - apply (delete_claim_frame "3" [c; d; c]).
    intros c' Hc'. apply list_elem_of_In in Hc'. simpl in Hc'.
    destruct Hc' as [<-|[<-|[<-|[]]]]; discriminate.
  - reflexivity.
Defined.

End RegistryClaims.

(** ** The search endpoints *)

Section Search.

Lemma matches_spec (query : string) (r : Result) :
  matches query r = true ↔ mentions query r.
Proof.
  unfold matches, mentions, substring_of.
  by rewrite orb_true_iff, !contains_spec.
Qed.

(** Both endpoints are the same function of their list of dummy results. *)
Lemma search_gamers_unfold (query : string) :
  query ≠ "" →
  search_gamers query
  = Ok (kept_or_all (List.filter (matches query) DUMMY_GAMER_RESULTS)
          DUMMY_GAMER_RESULTS).
Proof.
  intros Hq. unfold search_gamers.
  rewrite (proj2 (truthy_spec query) Hq). cbn [negb].
  by destruct (List.filter (matches query) DUMMY_GAMER_RESULTS).
Qed.

Lemma search_hobbyists_unfold (query : string) :
  query ≠ "" →
  search_hobbyists query
  = Ok (kept_or_all (List.filter (matches query) DUMMY_HOBBYIST_RESULTS)
          DUMMY_HOBBYIST_RESULTS).
Proof.
  intros Hq. unfold search_hobbyists.
  rewrite (proj2 (truthy_spec query) Hq). cbn [negb].
  by destruct (List.filter (matches query) DUMMY_HOBBYIST_RESULTS).
Qed.

Lemma kept_or_all_filter (p : Result → bool) (candidates : list Result) :
  candidates ≠ [] →
  let l := kept_or_all (List.filter p candidates) candidates in
  l ≠ []
  ∧ (1 ≤ length l ≤ length candidates)%nat
  ∧ (∀ r, r ∈ l → r ∈ candidates)
  ∧ ((∀ r, r ∈ candidates → p r = false) → l = candidates).
Proof.
  intros Hne l. subst l.
  pose proof (filter_length_le p candidates) as Hlen.
  destruct (List.filter p candidates) as [|r0 kept] eqn:Hf; simpl.
  - split_and!; try done.
    destruct candidates; [done | simpl; lia].
  - split_and!.
    + done.
    + lia.
    + simpl in Hlen. lia.
    + intros r Hr. rewrite <- Hf in Hr.
      apply list_elem_of_In, filter_In in Hr. apply list_elem_of_In, Hr.
    + intros Hall.
      assert (Hin : In r0 (List.filter p candidates))
        by (rewrite Hf; by left).
      apply filter_In in Hin as [Hin Hp].
      apply list_elem_of_In, Hall in Hin. congruence.
Qed.

End Search.

(** ** The Reddit adapter's deduplication *)

Section Dedup.

Implicit Types (results deduped : list Result) (seen : gset string).

(** The accumulator only grows at its end. *)
Lemma dedup_loop_acc results seen deduped :
  dedup_loop results seen deduped = deduped ++ dedup_loop results seen [].
Proof.
  revert seen deduped; induction results as [|r rest IH];
    intros seen deduped; simpl.
  - by rewrite app_nil_r.
  - destruct (decide (title r ∈ seen)); [apply IH|].
    rewrite (IH _ (deduped ++ [r])), (IH _ ([] ++ [r])).
    by rewrite <- app_assoc.
Qed.

Lemma dedup_loop_cons r rest seen :
  dedup_loop (r :: rest) seen []
  = if decide (title r ∈ seen) then dedup_loop rest seen []
    else r :: dedup_loop rest ({[title r]} ∪ seen) [].
Proof.
  simpl. destruct (decide (title r ∈ seen)); [done|].
  by rewrite dedup_loop_acc.
Qed.

Lemma dedup_loop_sublist results seen :
  dedup_loop results seen [] `sublist_of` results.
Proof.
  revert seen; induction results as [|r rest IH]; intros seen.
  - done.
  - rewrite dedup_loop_cons. destruct (decide (title r ∈ seen)).
    + by apply sublist_cons.
    + by apply sublist_skip.
Qed.

Lemma dedup_loop_unseen results seen r :
  r ∈ dedup_loop results seen [] → title r ∉ seen.
Proof.
  revert seen; induction results as [|r0 rest IH]; intros seen.
  - by intros ?%elem_of_nil.
  - rewrite dedup_loop_cons. destruct (decide (title r0 ∈ seen)).
    + apply IH.
    + intros [->|Hin]%elem_of_cons; [done|].
      apply IH in Hin. set_solver.
Qed.

Lemma dedup_loop_NoDup results seen :
  NoDup (title <$> dedup_loop results seen []).
Proof.
  revert seen; induction results as [|r rest IH]; intros seen.
  - constructor.
  - rewrite dedup_loop_cons. destruct (decide (title r ∈ seen)); [apply IH|].
    rewrite fmap_cons. constructor; [|apply IH].
    intros (r' & Ht & Hin)%list_elem_of_fmap.
    apply dedup_loop_unseen in Hin. set_solver.
Qed.

(** No title is lost. *)
Lemma dedup_loop_covers results seen r :
  r ∈ results →
  title r ∈ seen ∨ title r ∈ title <$> dedup_loop results seen [].
Proof.
  revert seen; induction results as [|r0 rest IH]; intros seen.
  - by intros ?%elem_of_nil.
  - rewrite dedup_loop_cons.
    intros [->|Hin]%elem_of_cons.
    + destruct (decide (title r0 ∈ seen)); [by left|].
      right. rewrite fmap_cons. by left.
    + destruct (decide (title r0 ∈ seen)); [by apply IH|].
      destruct (IH ({[title r0]} ∪ seen) Hin) as [Hs|Hd].
      * apply elem_of_union in Hs as [->%elem_of_singleton|Hs];
          [right; rewrite fmap_cons; by left | by left].
      * right. rewrite fmap_cons. by right.
Qed.

(** What is kept is what comes first with its title. *)
Lemma dedup_loop_first results seen r :
  r ∈ dedup_loop results seen []
  ↔ (title r ∉ seen) ∧ first_with_title results r.
Proof.
  unfold first_with_title.
  revert seen; induction results as [|r0 rest IH]; intros seen.
  - split; [by intros ?%elem_of_nil | by intros [_ [i [? _]]]].
  - rewrite dedup_loop_cons. destruct (decide (title r0 ∈ seen)) as [Hs|Hs].
    + rewrite IH. split.
      * intros [Hr (i & Hi & Hfirst)]. split; [done|].
        exists (S i). split; [done|].
        intros [|j] r' Hj Hr'; simpl in Hr'.
        -- injection Hr' as ->. intros Heq. apply Hr. by rewrite <- Heq.
        -- apply (Hfirst j); [lia | done].
      * intros [Hr (i & Hi & Hfirst)]. split; [done|].
        destruct i as [|i]; simpl in Hi.
        -- injection Hi as ->. done.
        -- exists i. split; [done|].
           intros j r' Hj Hr'. apply (Hfirst (S j)); [lia | done].
    + rewrite elem_of_cons, IH. split.
      * intros [->|[Hr (i & Hi & Hfirst)]].
        -- split; [done|]. exists 0%nat. split; [done|]. intros; lia.
        -- split; [intros Hin; apply Hr, elem_of_union; by right|].
           exists (S i). split; [done|].
           intros [|j] r' Hj Hr'; simpl in Hr'.
           ++ injection Hr' as ->. intros Heq.
              apply Hr, elem_of_union. left. by apply elem_of_singleton.
           ++ apply (Hfirst j); [lia | done].
      * intros [Hr (i & Hi & Hfirst)].
        destruct i as [|i]; simpl in Hi.
        -- left. by injection Hi.
        -- right. split.
           ++ assert (title r0 ≠ title r) as Hne
                by (apply (Hfirst 0%nat); [lia | done]).
              intros [Heq%elem_of_singleton|Hin]%elem_of_union;
                [by apply Hne | by apply Hr].
           ++ exists i. split; [done|].
              intros j r' Hj Hr'. apply (Hfirst (S j)); [lia | done].
Qed.

End Dedup.

(** ** The aggregation *)

Section Aggregate.

Implicit Types (g : Scrapers) (query : string).

Lemma guarded_call_eq (module_name : string)
    (scraper : option (string → M (list Result))) query
    (st : list Result * list string) :
  guarded_call module_name scraper query st
  = Return (st.1 ++ contribution scraper query,
            st.2 ++ diagnostic module_name scraper query).
Proof.
  destruct st as [results err]. unfold guarded_call, contribution, diagnostic.
  destruct scraper as [scrape|]; simpl.
  - destruct (scrape query) as [r|e]; simpl; by rewrite app_nil_r.
  - by rewrite !app_nil_r.
Qed.

(** [aggregate_scrape] always returns: its result is what the five
    adapters contribute, in the order of the five blocks. *)
Lemma aggregate_scrape_eq g query :
  aggregate_scrape g query
  = Return (contribution (imported_reddit g) query
            ++ contribution (imported_twitter g) query
            ++ contribution (imported_github g) query
            ++ contribution (imported_etsy g) query
            ++ contribution (imported_youtube g) query,
            diagnostic "reddit_scraper" (imported_reddit g) query
            ++ diagnostic "twitter_scraper" (imported_twitter g) query
            ++ diagnostic "github_scraper" (imported_github g) query
            ++ diagnostic "etsy_scraper" (imported_etsy g) query
            ++ diagnostic "youtube_scraper" (imported_youtube g) query).
Proof.
  unfold aggregate_scrape.
  repeat (rewrite guarded_call_eq; cbn [mbind M_bind fst snd]).
  by rewrite !app_nil_l, <- !app_assoc.
Qed.

Lemma scrape_reddit_NoDup (w : World) query (limit : nat)
    (out : list Result) :
  scrape_reddit w query limit = Return out → NoDup (title <$> out).
Proof.
  unfold scrape_reddit.
  destruct (reddit_outer _ _ _) as [results|e]; simpl; [|done].
  intros [= <-]. rewrite fmap_take.
  eapply sublist_NoDup; [apply dedup_loop_NoDup | apply sublist_take].
Qed.

End Aggregate.

Section AggregateClaims.

Implicit Types (g : Scrapers) (query : string).

(** C1, as stated, fails: two GitHub repositories of one name give two
    results of one title, and [aggregate_scrape] returns both. *)
Lemma aggregate_scrape_duplicate_titles :
  let r1 := mkResult "prospector" ""
              "https://github.com/alice/prospector" "GitHub" in
  let r2 := mkResult "prospector" "Gold finder"
              "https://github.com/bob/prospector" "GitHub" in
  let r3 := mkResult "Unique item for gold" "Handmade treasure from Etsy."
              "https://www.etsy.com/search?q=gold" "Etsy" in
  aggregate_scrape (import_scrapers same_name_world all_imported) "gold"
  = Return ([r1; r2; r3], [])
  ∧ ¬ NoDup (title <$> [r1; r2; r3]).
Proof.
  split; [by vm_compute|].
  intros [Hnotin _]%NoDup_cons. apply Hnotin. by left.
Qed.

(** C1, amended. [aggregate_scrape] starts its result with what the Reddit
    adapter contributes, and in that part every title is unique:
    [scrape_reddit] goes through what it collected, keeps a result exactly
    when it is the first with its title (compared as strings), drops the
    later ones, and returns the first [limit] of what it kept. *)
Theorem reddit_part_titles_unique (w : World) (i : Imports) query :
  let g := import_scrapers w i in
  let reddit_part := contribution (imported_reddit g) query in
  (∃ others err, aggregate_scrape g query = Return (reddit_part ++ others, err))
  ∧ NoDup (title <$> reddit_part)
  ∧ (∀ limit out,
       scrape_reddit w query limit = Return out →
       ∃ results,
         let deduped := dedup_loop results ∅ [] in
         reddit_outer (λ sort, reddit_search w query sort limit)
           ["relevance"; "new"; "hot"; "top"] [] = Return results
         ∧ out = take limit deduped
         ∧ deduped `sublist_of` results
         ∧ (∀ r, r ∈ deduped ↔ first_with_title results r)
         ∧ (∀ r, r ∈ results → title r ∈ title <$> deduped)).
Proof.
  intros g reddit_part. split_and!.
  - rewrite aggregate_scrape_eq. by eexists _, _.
  - subst reddit_part g. unfold contribution, import_scrapers; simpl.
    destruct (reddit_imported i); [|constructor].
    destruct (scrape_reddit w query 30) as [out|e] eqn:Hout; [|constructor].
    by eapply scrape_reddit_NoDup.
  - intros limit out. unfold scrape_reddit.
    destruct (reddit_outer _ _ _) as [results|e]; simpl; [|done].
    intros [= <-]. exists results. split_and!.
    + done.
    + done.
    + apply dedup_loop_sublist.
    + intros r. rewrite dedup_loop_first. split; [by intros [_ ?]|].
      intros Hfirst. split; [apply not_elem_of_empty | done].
    + intros r Hr. destruct (dedup_loop_covers results ∅ r Hr) as [Hs|Hd];
        [by apply not_elem_of_empty in Hs | done].
Qed.

Lemma reddit_part_titles_unique_witness :
  let a := mkResult "A" "A" "https://reddit.com/r/a" "Reddit" in
  let b := mkResult "B" "B" "https://reddit.com/r/b1" "Reddit" in
  ∃ results,
    let deduped := dedup_loop results ∅ [] in
    reddit_outer (λ sort, reddit_search github_down_world "B" sort 30)
      ["relevance"; "new"; "hot"; "top"] [] = Return results
    ∧ [a; b] = take 30 deduped
    ∧ deduped `sublist_of` results
    ∧ (∀ r, r ∈ deduped ↔ first_with_title results r)
    ∧ (∀ r, r ∈ results → title r ∈ title <$> deduped).
Proof.
  intros a b.
  apply (reddit_part_titles_unique github_down_world all_imported "B").
  by vm_compute.
Defined.

(** C2, as stated, fails: asked for gold, [aggregate_scrape] also returns
    a result that mentions gold nowhere, next to two that do. *)
Lemma aggregate_scrape_keeps_unmatched :
  let r1 := mkResult "prospector" ""
              "https://github.com/alice/prospector" "GitHub" in
  let r2 := mkResult "prospector" "Gold finder"
              "https://github.com/bob/prospector" "GitHub" in
  let r3 := mkResult "Unique item for gold" "Handmade treasure from Etsy."
              "https://www.etsy.com/search?q=gold" "Etsy" in
  aggregate_scrape (import_scrapers same_name_world all_imported) "gold"
  = Return ([r1; r2; r3], [])
  ∧ ¬ mentions "gold" r1
  ∧ List.filter (matches "gold") [r1; r2; r3] = [r2; r3].
Proof.
  split_and!; [by vm_compute | | by vm_compute].
  rewrite <- matches_spec. by vm_compute.
Qed.

(** C2, amended. For a non-empty query each search endpoint returns the
    entries of its list of dummy results that mention the query (whatever
    test [p] decides that), in the order of the list, and the whole list
    when no entry does; the titles of either list are unique.
    [aggregate_scrape] returns all that the adapters contribute. *)
Theorem search_filter_with_fallback query (p : Result → bool) :
  query ≠ "" →
  (∀ r, p r = true ↔ mentions query r) →
  search_gamers query
  = Ok (kept_or_all (List.filter p DUMMY_GAMER_RESULTS) DUMMY_GAMER_RESULTS)
  ∧ search_hobbyists query
    = Ok (kept_or_all (List.filter p DUMMY_HOBBYIST_RESULTS)
            DUMMY_HOBBYIST_RESULTS)
  ∧ NoDup (title <$> DUMMY_GAMER_RESULTS)
  ∧ NoDup (title <$> DUMMY_HOBBYIST_RESULTS)
  ∧ ∀ g, ∃ err,
      aggregate_scrape g query
      = Return (contribution (imported_reddit g) query
                ++ contribution (imported_twitter g) query
                ++ contribution (imported_github g) query
                ++ contribution (imported_etsy g) query
                ++ contribution (imported_youtube g) query, err).
Proof.
  intros Hq Hp.
  assert (Hext : ∀ r, matches query r = p r).
  { intros r. apply eq_true_iff_eq. by rewrite matches_spec, Hp. }
  split_and!.
  - rewrite search_gamers_unfold by done. do 2 f_equal. by apply filter_ext.
  - rewrite search_hobbyists_unfold by done. do 2 f_equal.
    by apply filter_ext.
  - apply (bool_decide_unpack _). by vm_compute.
  - apply (bool_decide_unpack _). by vm_compute.
  - intros g. rewrite aggregate_scrape_eq. by eexists.
Qed.

Lemma search_filter_with_fallback_witness :
  search_gamers "vr"
  = Ok (kept_or_all (List.filter (matches "vr") DUMMY_GAMER_RESULTS)
          DUMMY_GAMER_RESULTS)
  ∧ search_hobbyists "vr"
    = Ok (kept_or_all (List.filter (matches "vr") DUMMY_HOBBYIST_RESULTS)
            DUMMY_HOBBYIST_RESULTS).
Proof.
  destruct (search_filter_with_fallback "vr" (matches "vr"))
    as (Hg & Hh & _).
  - discriminate.
  - intros r. apply matches_spec.
  - split; [exact Hg | exact Hh].
Defined.

(** C3. Whatever the five adapters do, [aggregate_scrape] returns and
    does not raise; its result is the results of the adapters that
    returned, one after the other. An adapter that raises adds nothing to
    it (and leaves one line on [stderr]), as does an adapter whose import
    failed. *)
Theorem aggregate_scrape_isolates_failures g query :
  let five := [ ("reddit_scraper", imported_reddit g);
                ("twitter_scraper", imported_twitter g);
                ("github_scraper", imported_github g);
                ("etsy_scraper", imported_etsy g);
                ("youtube_scraper", imported_youtube g) ] in
  aggregate_scrape g query
  = Return (concat ((λ a, contribution a.2 query) <$> five),
            concat ((λ a, diagnostic a.1 a.2 query) <$> five))
  ∧ ∀ (module_name : string) scraper,
      (scraper = None →
         contribution scraper query = []
         ∧ diagnostic module_name scraper query = [])
      ∧ (∀ scrape e,
           scraper = Some scrape → scrape query = Raise e →
           contribution scraper query = []
           ∧ length (diagnostic module_name scraper query) = 1%nat)
      ∧ (∀ scrape r,
           scraper = Some scrape → scrape query = Return r →
           contribution scraper query = r
           ∧ diagnostic module_name scraper query = []).
Proof.
  intros five. split.
  - rewrite aggregate_scrape_eq. subst five. simpl. by rewrite !app_nil_r.
  - intros module_name scraper. unfold contribution, diagnostic. split_and!.
    + by intros ->.
    + intros scrape e -> Hraise. by rewrite Hraise.
    + intros scrape r -> Hret. by rewrite Hret.
Qed.

(** The scenario of the specification: Reddit answers A, B, B and GitHub
    times out. *)
Lemma aggregate_scrape_isolates_failures_witness :
  let g := import_scrapers github_down_world
             (mkImports true false true false false) in
  (contribution (imported_github g) "B" = []
   ∧ length (diagnostic "github_scraper" (imported_github g) "B") = 1%nat)
  ∧ aggregate_scrape g "B"
    = Return ([ mkResult "A" "A" "https://reddit.com/r/a" "Reddit";
                mkResult "B" "B" "https://reddit.com/r/b1" "Reddit" ],
              [ "[ERROR] github_scraper failed: timeout" ]).
Proof.
  intros g.
  destruct (aggregate_scrape_isolates_failures g "B") as [Heq Hall].
  split.
  - destruct (Hall "github_scraper" (imported_github g)) as (_ & Hraise & _).
    eapply Hraise; reflexivity.
  - rewrite Heq. by vm_compute.
Defined.

(** C4, as stated, fails: [aggregate_scrape] takes the empty query like
    any other and returns what the adapters give for it. *)
Lemma aggregate_scrape_accepts_empty_query :
  aggregate_scrape (import_scrapers quiet_world all_imported) ""
  = Return ([ mkResult "Unique item for " "Handmade treasure from Etsy."
                "https://www.etsy.com/search?q=" "Etsy" ], []).
Proof. by vm_compute. Qed.

(** C4, amended. The search endpoints refuse the empty query with
    [HTTPException(status_code=400)] and return no results, and they
    return results for every other query. [aggregate_scrape] checks
    nothing about the query and returns for every query. *)
Theorem empty_query_rejected_by_endpoints query :
  (query = "" →
     search_gamers query = HTTPException 400 "Query parameter is required"
     ∧ search_hobbyists query
       = HTTPException 400 "Query parameter is required")
  ∧ (query ≠ "" →
       (∃ l, search_gamers query = Ok l)
       ∧ (∃ l, search_hobbyists query = Ok l))
  ∧ ∀ g, ∃ st, aggregate_scrape g query = Return st.
Proof.
  split_and!.
  - by intros ->.
  - intros Hq. rewrite search_gamers_unfold, search_hobbyists_unfold by done.
    split; by eexists.
  - intros g. rewrite aggregate_scrape_eq. by eexists.
Qed.

Lemma empty_query_rejected_by_endpoints_witness :
  (search_gamers "" = HTTPException 400 "Query parameter is required"
   ∧ search_hobbyists "" = HTTPException 400 "Query parameter is required")
  ∧ ((∃ l, search_gamers "vr" = Ok l) ∧ (∃ l, search_hobbyists "vr" = Ok l)).
Proof.
  split.
  - apply (empty_query_rejected_by_endpoints ""). reflexivity.
  - apply (empty_query_rejected_by_endpoints "vr"). discriminate.
Defined.

(** C9. In the result of [aggregate_scrape], what one adapter returned
    stands as one block, in the order in which the adapter returned it. *)
Theorem aggregate_scrape_keeps_adapter_order g query :
  ∃ results err,
    aggregate_scrape g query = Return (results, err)
    ∧ ∀ scraper scrape r,
        scraper ∈ [ imported_reddit g; imported_twitter g; imported_github g;
                    imported_etsy g; imported_youtube g ] →
        scraper = Some scrape →
        scrape query = Return r →
        (∃ before after, results = before ++ r ++ after)
        ∧ r `sublist_of` results.
Proof.
  rewrite aggregate_scrape_eq. eexists _, _. split; [done|].
  intros scraper scrape r Hin -> Hret.
  assert (Hc : contribution (Some scrape) query = r)
    by (unfold contribution; by rewrite Hret).
  assert (Hblock : ∃ before after,
    contribution (imported_reddit g) query
    ++ contribution (imported_twitter g) query
    ++ contribution (imported_github g) query
    ++ contribution (imported_etsy g) query
    ++ contribution (imported_youtube g) query = before ++ r ++ after).
  { rewrite !elem_of_cons in Hin.
    destruct Hin as [<-|[<-|[<-|[<-|[<-|Hin]]]]];
      [| | | | |by apply elem_of_nil in Hin]; rewrite Hc.
    - by exists [], (contribution (imported_twitter g) query
                     ++ contribution (imported_github g) query
                     ++ contribution (imported_etsy g) query
                     ++ contribution (imported_youtube g) query).
    - by exists (contribution (imported_reddit g) query),
                (contribution (imported_github g) query
                 ++ contribution (imported_etsy g) query
                 ++ contribution (imported_youtube g) query).
    - exists (contribution (imported_reddit g) query
              ++ contribution (imported_twitter g) query),
             (contribution (imported_etsy g) query
              ++ contribution (imported_youtube g) query).
      by rewrite <- !app_assoc.
    - exists (contribution (imported_reddit g) query
              ++ contribution (imported_twitter g) query
              ++ contribution (imported_github g) query),
             (contribution (imported_youtube g) query).
      by rewrite <- !app_assoc.
    - exists (contribution (imported_reddit g) query
              ++ contribution (imported_twitter g) query
              ++ contribution (imported_github g) query
              ++ contribution (imported_etsy g) query), [].
      by rewrite app_nil_r, <- !app_assoc. }
  split; [done|].
  destruct Hblock as (before & after & ->).
  by apply sublist_inserts_l, sublist_inserts_r.
Qed.

Lemma aggregate_scrape_keeps_adapter_order_witness :
  let g := import_scrapers same_name_world all_imported in
  ∃ results err,
    aggregate_scrape g "gold" = Return (results, err)
    ∧ [ mkResult "prospector" "" "https://github.com/alice/prospector"
          "GitHub";
        mkResult "prospector" "Gold finder"
          "https://github.com/bob/prospector" "GitHub" ]
      `sublist_of` results.
Proof.
  intros g.
  destruct (aggregate_scrape_keeps_adapter_order g "gold")
    as (results & err & Heq & Hall).
  exists results, err. split; [exact Heq|].
  eapply (Hall (imported_github g)).
  - rewrite !elem_of_cons. right. right. by left.
  - reflexivity.
  - by vm_compute.
Defined.

End AggregateClaims.

(** ** Descriptions *)

Section Descriptions.

(** C5, as stated, fails: the Twitter adapter hands on a tweet of 201
    characters whole, and the Reddit adapter does the same with the title
    of a post that has no body. *)
Lemma description_longer_than_200 :
  scrape_twitter long_tweet_world "gold" 5
  = Return [twitter_result (mkTweet long_text 7)]
  ∧ String.length (description (twitter_result (mkTweet long_text 7)))
    = 201%nat
  ∧ String.length
      (description (reddit_result (mkSubmission long_text "" "/r/x" false)))
    = 201%nat.
Proof. split_and!; by vm_compute. Qed.

(** C5, amended. The Reddit adapter makes the description of a post with
    a body from the first 200 characters of the body, so that it is at
    most 200 characters long, and takes the title as it is for a post
    without body. The Twitter adapter takes the whole text of the tweet as
    description; only its title is cut, to 80 characters. *)
Theorem description_truncation (submission : Submission) (tweet : Tweet) :
  (selftext submission ≠ "" →
     description (reddit_result submission)
     = Py.slice_to 200 (selftext submission)
     ∧ (String.length (description (reddit_result submission)) ≤ 200)%nat
     ∧ ∃ rest, selftext submission
               = description (reddit_result submission) +:+ rest)
  ∧ (selftext submission = "" →
       description (reddit_result submission) = submission_title submission)
  ∧ description (twitter_result tweet) = text tweet
  ∧ title (twitter_result tweet) = Py.slice_to 80 (text tweet)
  ∧ (String.length (title (twitter_result tweet)) ≤ 80)%nat.
Proof.
  unfold reddit_result, twitter_result. cbn [description title].
  split_and!.
  - intros Hbody%truthy_spec. rewrite Hbody. split_and!.
    + done.
    + rewrite slice_to_length. lia.
    + apply slice_to_prefix.
  - by intros ->.
  - done.
  - done.
  - rewrite slice_to_length. lia.
Qed.

Lemma description_truncation_witness :
  let post := mkSubmission "Gold" long_text "/r/gold" false in
  (String.length (description (reddit_result post)) ≤ 200)%nat
  ∧ description (reddit_result (mkSubmission "Gold" "" "/r/gold" false))
    = "Gold".
Proof.
  intros post. split.
  - apply (description_truncation post (mkTweet "" 0)). discriminate.
  - apply (description_truncation (mkSubmission "Gold" "" "/r/gold" false)
             (mkTweet "" 0)).
    reflexivity.
Defined.

End Descriptions.

(** ** The search endpoints never answer with nothing *)

Section SearchClaims.

(** C10. For a non-empty query, [search_gamers] and [search_hobbyists]
    return between one and four results, each of them an entry of the
    endpoint's list of dummy results; when no entry passes the filter the
    whole list is returned. *)
Theorem search_endpoints_never_empty (query : string) :
  query ≠ "" →
  (∃ l, search_gamers query = Ok l
        ∧ l ≠ []
        ∧ (1 ≤ length l ≤ 4)%nat
        ∧ (∀ r, r ∈ l → r ∈ DUMMY_GAMER_RESULTS)
        ∧ ((∀ r, r ∈ DUMMY_GAMER_RESULTS → matches query r = false) →
           l = DUMMY_GAMER_RESULTS))
  ∧ (∃ l, search_hobbyists query = Ok l
          ∧ l ≠ []
          ∧ (1 ≤ length l ≤ 4)%nat
          ∧ (∀ r, r ∈ l → r ∈ DUMMY_HOBBYIST_RESULTS)
          ∧ ((∀ r, r ∈ DUMMY_HOBBYIST_RESULTS → matches query r = false) →
             l = DUMMY_HOBBYIST_RESULTS)).
Proof.
  intros Hq. split.
  - rewrite search_gamers_unfold by done. eexists. split; [done|].
    by apply (kept_or_all_filter (matches query) DUMMY_GAMER_RESULTS).
  - rewrite search_hobbyists_unfold by done. eexists. split; [done|].
    by apply (kept_or_all_filter (matches query) DUMMY_HOBBYIST_RESULTS).
Qed.

Lemma search_endpoints_never_empty_witness :
  (∃ l, search_gamers "zzz" = Ok l ∧ l ≠ [] ∧ (1 ≤ length l ≤ 4)%nat)
  ∧ (∃ l, search_hobbyists "leather" = Ok l ∧ l ≠ []
          ∧ (1 ≤ length l ≤ 4)%nat).
Proof.
  split.
  - destruct (search_endpoints_never_empty "zzz") as [(l & H1 & H2 & H3 & _) _];
      [discriminate|]. by exists l.
  - destruct (search_endpoints_never_empty "leather")
      as [_ (l & H1 & H2 & H3 & _)]; [discriminate|]. by exists l.
Defined.

End SearchClaims.

(** * Further properties of the code *)

(** ** The claim registry: how the operations compose *)

Section RegistryMore.

Implicit Types (claim c : Claim) (claims_storage st : list Claim).

(** X1. Deleting an id a second time changes nothing more. *)
Theorem delete_claim_idempotent (claim_id : string) st :
  (delete_claim claim_id (delete_claim claim_id st).2).2
  = (delete_claim claim_id st).2.
Proof.
  rewrite !delete_claim_storage.
  induction st as [|c st IH]; [done|].
  rewrite filter_cons. destruct (decide (id c ≠ claim_id)) as [Hc|Hc].
  - rewrite filter_cons, decide_True by done. by f_equal.
  - done.
Qed.

(** X2. Two deletions give the same registry in either order. *)
Theorem delete_claim_commutes (id1 id2 : string) st :
  (delete_claim id1 (delete_claim id2 st).2).2
  = (delete_claim id2 (delete_claim id1 st).2).2.
Proof.
  rewrite !delete_claim_storage.
  induction st as [|c st IH]; [done|].
  rewrite !(filter_cons _ c).
  destruct (decide (id c ≠ id2)) as [H2|H2],
           (decide (id c ≠ id1)) as [H1|H1];
    rewrite ?filter_cons, ?decide_True, ?decide_False by done;
    by rewrite IH.
Qed.

(** X3. Deleting the id of the claim that was just created removes it
    again, together with every older claim of that id; deleting any other
    id leaves the new claim last in the registry. *)
Theorem delete_after_create claim (claim_id : string) st :
  (claim_id = id claim →
     (delete_claim claim_id (create_claim claim st).2).2
     = (delete_claim claim_id st).2)
  ∧ (claim_id ≠ id claim →
       (delete_claim claim_id (create_claim claim st).2).2
       = (delete_claim claim_id st).2 ++ [claim]).
Proof.
  rewrite !delete_claim_storage. unfold create_claim. cbn [snd].
  rewrite filter_app, filter_cons, filter_nil. split; intros Hid.
  - rewrite decide_False by (intros Hne; by apply Hne).
    by rewrite app_nil_r.
  - by rewrite decide_True by (intros Heq; by apply Hid).
Qed.

Lemma delete_after_create_witness :
  let c := mkClaim "1" "X" "d" "Reddit" "https://reddit.com/x" "q" "t" in
  let d := mkClaim "2" "Y" "" "GitHub" "https://github.com/y" "q" "t" in
  (delete_claim "1" (create_claim c [c; d]).2).2 = (delete_claim "1" [c; d]).2
  ∧ (delete_claim "2" (create_claim c [c; d]).2).2
    = (delete_claim "2" [c; d]).2 ++ [c].
Proof.
  intros c d. split.
  - apply (delete_after_create c "1" [c; d]). reflexivity.
  - apply (delete_after_create c "2" [c; d]). discriminate.
Defined.

(** X4. A deletion shortens the registry by the number of claims that
    carry the id, so the registry keeps its length exactly when no claim
    carries it. *)
Theorem delete_claim_length (claim_id : string) st :
  length (delete_claim claim_id st).2
  + length (filter (λ c, id c = claim_id) st) = length st
  ∧ (length (delete_claim claim_id st).2 = length st
     ↔ ∀ c, c ∈ st → id c ≠ claim_id).
Proof.
  rewrite delete_claim_storage.
  assert (Hsum : length (filter (λ c, id c ≠ claim_id) st)
                 + length (filter (λ c, id c = claim_id) st) = length st).
  { induction st as [|c st IH]; [done|].
    rewrite !(filter_cons _ c).
    destruct (decide (id c = claim_id)) as [Hc|Hc].
    - rewrite decide_False by (intros Hne; by apply Hne). simpl. lia.
    - rewrite decide_True by done. simpl. lia. }
  split; [done|]. split.
  - intros Hlen c Hc Hid.
    assert (Hin : c ∈ filter (λ c, id c = claim_id) st)
      by (by apply list_elem_of_filter).
    destruct (filter (λ c, id c = claim_id) st);
      [by apply elem_of_nil in Hin | simpl in Hsum; lia].
  - intros Hall.
    assert (Hnil : filter (λ c, id c = claim_id) st = []).
    { clear Hsum. induction st as [|c st IH]; [done|].
      rewrite filter_cons, decide_False
        by (intros Hid; by apply (Hall c); [left|]).
      apply IH. intros c' Hc'. apply Hall. by right. }
    rewrite Hnil in Hsum. simpl in Hsum. lia.
Qed.

Lemma delete_claim_length_witness :
  let c := mkClaim "1" "X" "d" "Reddit" "https://reddit.com/x" "q" "t" in
  let d := mkClaim "2" "Y" "" "GitHub" "https://github.com/y" "q" "t" in
  length (delete_claim "3" [c; d; c]).2 = 3%nat
  ∧ (length (delete_claim "1" [c; d; c]).2 + 2 = 3)%nat.
Proof.
  intros c d. split.
  - apply (proj2 (delete_claim_length "3" [c; d; c])).
    intros c' Hc'. apply list_elem_of_In in Hc'. simpl in Hc'.
    destruct Hc' as [<-|[<-|[<-|[]]]]; discriminate.
  - exact (proj1 (delete_claim_length "1" [c; d; c])).
Defined.

(** X5. Claims created one after the other are listed behind the older
    ones, in the order of their creation. *)
Theorem create_all_appends (claims : list Claim) st :
  create_all claims st = st ++ claims
  ∧ (get_claims (create_all claims st)).1 = st ++ claims
  ∧ ∀ i c, claims !! i = Some c →
           (get_claims (create_all claims st)).1 !! (length st + i)%nat
           = Some c.
Proof.
  assert (Heq : create_all claims st = st ++ claims).
  { unfold create_all. revert st.
    induction claims as [|c claims IH]; intros st; simpl.
    - by rewrite app_nil_r.
    - rewrite IH. by rewrite <- app_assoc. }
  unfold get_claims. cbn [fst]. rewrite Heq. split_and!; try done.
  intros i c Hi. by rewrite lookup_app_r, Nat.add_comm, Nat.add_sub by lia.
Qed.

Lemma create_all_appends_witness :
  let c := mkClaim "1" "X" "d" "Reddit" "https://reddit.com/x" "q" "t" in
  let d := mkClaim "1" "Y" "" "GitHub" "https://github.com/y" "q" "t" in
  (get_claims (create_all [d; c] [c])).1 !! 2%nat = Some c.
Proof.
  intros c d.
  apply (create_all_appends [d; c] [c] : _ ∧ _ ∧ _). reflexivity.
Defined.

End RegistryMore.

(** ** The search endpoints: letter case, order, hits *)

Section SearchMore.

Lemma lower_app (s t : string) :
  Py.lower (s +:+ t) = Py.lower s +:+ Py.lower t.
Proof.
  induction s as [|c s IH]; [done|].
  rewrite append_cons. simpl. rewrite append_cons. by f_equal.
Qed.

Lemma lower_truthy (s t : string) :
  Py.lower s = Py.lower t → Py.truthy s = Py.truthy t.
Proof. by destruct s, t. Qed.

Lemma substring_of_lower (needle hay : string) :
  substring_of needle hay → substring_of (Py.lower needle) (Py.lower hay).
Proof.
  intros (pre & post & ->). exists (Py.lower pre), (Py.lower post).
  by rewrite !lower_app.
Qed.

Lemma bool_filter_sublist {A} (p : A → bool) (l : list A) :
  List.filter p l `sublist_of` l.
Proof.
  induction l as [|x l IH]; [done|]. simpl.
  destruct (p x); [by apply sublist_skip | by apply sublist_cons].
Qed.

Lemma kept_or_all_sublist (p : Result → bool) (candidates : list Result) :
  kept_or_all (List.filter p candidates) candidates `sublist_of` candidates.
Proof.
  pose proof (bool_filter_sublist p candidates) as Hsub.
  by destruct (List.filter p candidates).
Qed.

(** X6. The endpoints do not see the letter case of the query: two
    queries that differ only in case get the same answer. *)
Theorem search_ignores_case (query1 query2 : string) :
  Py.lower query1 = Py.lower query2 →
  search_gamers query1 = search_gamers query2
  ∧ search_hobbyists query1 = search_hobbyists query2.
Proof.
  intros Hlow. unfold search_gamers, search_hobbyists.
  rewrite (lower_truthy _ _ Hlow).
  assert (Hext : ∀ r, matches query1 r = matches query2 r)
    by (intros r; unfold matches; by rewrite Hlow).
  by rewrite !(filter_ext _ _ Hext).
Qed.

Lemma search_ignores_case_witness :
  search_gamers "Neon KNIGHTS" = search_gamers "neon knights"
  ∧ search_hobbyists "Neon KNIGHTS" = search_hobbyists "neon knights".
Proof. apply (search_ignores_case "Neon KNIGHTS" "neon knights"). reflexivity.
Defined.

(** X7. Whatever an endpoint returns is in the order of its list of dummy
    results, without repetition: no title occurs twice in an answer. *)
Theorem search_results_in_order (query : string) (l : list Result) :
  (search_gamers query = Ok l →
     l `sublist_of` DUMMY_GAMER_RESULTS ∧ NoDup (title <$> l))
  ∧ (search_hobbyists query = Ok l →
       l `sublist_of` DUMMY_HOBBYIST_RESULTS ∧ NoDup (title <$> l)).
Proof.
  assert (Hg : NoDup (title <$> DUMMY_GAMER_RESULTS))
    by (apply (bool_decide_unpack _); by vm_compute).
  assert (Hh : NoDup (title <$> DUMMY_HOBBYIST_RESULTS))
    by (apply (bool_decide_unpack _); by vm_compute).
  split; intros Hl.
  - destruct (decide (query = "")) as [->|Hq]; [done|].
    rewrite search_gamers_unfold in Hl by done. injection Hl as <-.
    pose proof (kept_or_all_sublist (matches query) DUMMY_GAMER_RESULTS).
    split; [done|]. eapply sublist_NoDup; [exact Hg | by apply fmap_sublist].
  - destruct (decide (query = "")) as [->|Hq]; [done|].
    rewrite search_hobbyists_unfold in Hl by done. injection Hl as <-.
    pose proof (kept_or_all_sublist (matches query) DUMMY_HOBBYIST_RESULTS).
    split; [done|]. eapply sublist_NoDup; [exact Hh | by apply fmap_sublist].
Qed.

Lemma search_results_in_order_witness :
  let l := [ mkResult "Beta Access: Neon Knights VR"
               "Exclusive beta testing opportunity for upcoming cyberpunk VR adventure. Apply before slots fill up!"
               "https://discord.gg/neonknights" "Discord" ] in
  l `sublist_of` DUMMY_GAMER_RESULTS ∧ NoDup (title <$> l).
Proof.
  intros l. apply (search_results_in_order "vr" l). by vm_compute.
Defined.

(** X8. A query that is, up to letter case, a non-empty piece of the title
    or of the description of a dummy result gets that result, and gets
    nothing that does not mention the query. *)
Theorem search_finds_entry (query piece : string) (r : Result) :
  query ≠ "" →
  Py.lower query = Py.lower piece →
  substring_of piece (title r) ∨ substring_of piece (description r) →
  (r ∈ DUMMY_GAMER_RESULTS →
     ∃ l, search_gamers query = Ok l ∧ r ∈ l ∧ ∀ r', r' ∈ l → mentions query r')
  ∧ (r ∈ DUMMY_HOBBYIST_RESULTS →
       ∃ l, search_hobbyists query = Ok l ∧ r ∈ l
            ∧ ∀ r', r' ∈ l → mentions query r').
Proof.
  intros Hq Hlow Hpiece.
  assert (Hm : matches query r = true).
  { apply matches_spec. unfold mentions. rewrite Hlow.
    destruct Hpiece as [Ht|Hd]; [left | right]; by apply substring_of_lower. }
  assert (Hhit : ∀ candidates, r ∈ candidates →
    let l := kept_or_all (List.filter (matches query) candidates) candidates in
    r ∈ l ∧ ∀ r', r' ∈ l → mentions query r').
  { intros candidates Hin.
    assert (Hrin : r ∈ List.filter (matches query) candidates)
      by (apply list_elem_of_In, filter_In; split;
          [by apply list_elem_of_In | done]).
    destruct (List.filter (matches query) candidates) as [|r0 kept] eqn:Hf;
      [by apply elem_of_nil in Hrin|].
    simpl. split; [done|].
    intros r' Hr'. rewrite <- Hf in Hr'.
    apply list_elem_of_In, filter_In in Hr'. apply matches_spec, Hr'. }
  split; intros Hin.
  - rewrite search_gamers_unfold by done. eexists. split; [done|].
    by apply Hhit.
  - rewrite search_hobbyists_unfold by done. eexists. split; [done|].
    by apply Hhit.
Qed.

Lemma search_finds_entry_witness :
  let r := mkResult "Blacksmithing Tutorial Series"
             "Complete video course on traditional blacksmithing. From basic tools to advanced decorative techniques."
             "https://youtube.com/blacksmith-master" "YouTube" in
  ∃ l, search_hobbyists "TUTORIAL" = Ok l ∧ r ∈ l
       ∧ ∀ r', r' ∈ l → mentions "TUTORIAL" r'.
Proof.
  intros r.
  apply (search_finds_entry "TUTORIAL" "Tutorial" r).
  - discriminate.
  - reflexivity.
  - left. by exists "Blacksmithing ", " Series".
  - unfold DUMMY_HOBBYIST_RESULTS. rewrite !elem_of_cons.
    right. right. right. by left.
Defined.

End SearchMore.

(** ** The adapters, one by one *)

Section AdaptersMore.

Implicit Types (w : World) (query : string) (limit : nat).






Lemma twitter_loop_eq (tweets : list Tweet) (results : list Result) :
  twitter_loop tweets results = results ++ (twitter_result <$> tweets).
Proof.
  revert results; induction tweets as [|tweet rest IH]; intros results; simpl.
  - by rewrite app_nil_r.
  - rewrite IH. by rewrite <- app_assoc.
Qed.

(** X11. The Twitter adapter raises what the client raises, returns
    nothing when the answer has no data, and otherwise returns one result
    per tweet, in the order of the answer and whatever [limit] is: the
    description is the text, the title is its beginning, at most 80
    characters long. *)
Theorem scrape_twitter_cases w query limit :
  (∀ e, search_recent_tweets w query limit = Raise e →
        scrape_twitter w query limit = Raise e)
  ∧ (search_recent_tweets w query limit = Return None →
     scrape_twitter w query limit = Return [])
  ∧ (∀ tweets, search_recent_tweets w query limit = Return (Some tweets) →
     ∃ out,
       scrape_twitter w query limit = Return out
       ∧ Forall2 (λ tweet r,
            description r = text tweet
            ∧ (∃ rest, description r = title r +:+ rest)
            ∧ (String.length (title r) ≤ 80)%nat
            ∧ source r = "Twitter/X") tweets out).
Proof.
  unfold scrape_twitter. split_and!.
  - by intros e ->.
  - by intros ->.
  - intros tweets ->. cbn [mbind M_bind default]. eexists. split; [done|].
    rewrite twitter_loop_eq, app_nil_l. apply Forall2_fmap_r, Forall_Forall2_diag.
    apply Forall_forall. intros tweet _. unfold twitter_result.
    cbn [description title source]. split_and!.
    + done.
    + apply slice_to_prefix.
    + cbn [title]. rewrite slice_to_length. lia.
    + done.
Qed.

Lemma scrape_twitter_cases_witness :
  ∃ out,
    scrape_twitter long_tweet_world "gold" 5 = Return out
    ∧ Forall2 (λ tweet r,
         description r = text tweet
         ∧ (∃ rest, description r = title r +:+ rest)
         ∧ (String.length (title r) ≤ 80)%nat
         ∧ source r = "Twitter/X") [mkTweet long_text 7] out.
Proof.
  apply (scrape_twitter_cases long_tweet_world "gold" 5). reflexivity.
Defined.

(** X12. The links of two tweets are the same only when the tweets have
    the same id. *)
Theorem twitter_link_identifies_tweet (tweet1 tweet2 : Tweet) :
  link (twitter_result tweet1) = link (twitter_result tweet2)
  ↔ tweet_id tweet1 = tweet_id tweet2.
Proof.
  unfold twitter_result. cbn [link]. split.
  - intros Heq. apply (inj (String.app _)) in Heq. by apply (inj pretty).
  - by intros ->.
Qed.

Lemma twitter_link_identifies_tweet_witness :
  link (twitter_result (mkTweet "gold" 7))
  ≠ link (twitter_result (mkTweet "gold" 8)).
Proof.
  intros Heq.
  apply (twitter_link_identifies_tweet (mkTweet "gold" 7) (mkTweet "gold" 8))
    in Heq.
  discriminate Heq.
Defined.

End AdaptersMore.

(** ** Answers with missing keys *)

Section MissingKeys.

Implicit Types (w : World) (query : string) (limit : nat).

Lemma github_result_complete (repo : Repo) :
  repo_complete repo →
  ∃ r, github_result repo = Return r
       ∧ name repo = Some (title r)
       ∧ html_url repo = Some (link r)
       ∧ description r = default "" (default None (repo_description repo))
       ∧ source r = "GitHub".
Proof.
  destruct repo as [[n|] [d|] [u|]]; intros (Hn & Hd & Hu);
    try (by apply is_Some_None in Hn); try (by apply is_Some_None in Hd);
    try (by apply is_Some_None in Hu).
  eexists. split; [done|]. cbn. split_and!; try done.
  destruct d as [[|c s]|]; done.
Qed.

Lemma github_result_incomplete (repo : Repo) :
  ¬ repo_complete repo →
  ∃ key, github_result repo = Raise ("KeyError: " +:+ key)
         ∧ key ∈ ["name"; "description"; "html_url"].
Proof.
  destruct repo as [[n|] [d|] [u|]]; intros Hnot.
  - destruct Hnot. by repeat split.
  - exists "html_url". split; [done|]. rewrite !elem_of_cons. tauto.
  - exists "description". split; [done|]. rewrite !elem_of_cons. tauto.
  - exists "description". split; [done|]. rewrite !elem_of_cons. tauto.
  - exists "name". split; [done|]. rewrite !elem_of_cons. tauto.
  - exists "name". split; [done|]. rewrite !elem_of_cons. tauto.
  - exists "name". split; [done|]. rewrite !elem_of_cons. tauto.
  - exists "name". split; [done|]. rewrite !elem_of_cons. tauto.
Qed.

Lemma repo_complete_dec (repo : Repo) :
  repo_complete repo ∨ ¬ repo_complete repo.
Proof.
  destruct repo as [[n|] [d|] [u|]];
    try (left; by repeat split);
    right; intros (Hn & Hd & Hu);
    try (by apply is_Some_None in Hn); try (by apply is_Some_None in Hd);
    by apply is_Some_None in Hu.
Qed.

Lemma github_loop_complete (items : list Repo) (results : list Result) :
  Forall repo_complete items →
  ∃ out,
    github_loop items results = Return (results ++ out)
    ∧ Forall2 (λ repo r,
         name repo = Some (title r)
         ∧ html_url repo = Some (link r)
         ∧ description r = default "" (default None (repo_description repo))
         ∧ source r = "GitHub") items out.
Proof.
  intros Hall. revert results.
  induction Hall as [|repo rest Hrepo Hrest IH]; intros results.
  - exists []. by rewrite app_nil_r.
  - destruct (github_result_complete repo Hrepo) as (r & Hr & Hprops).
    destruct (IH (results ++ [r])) as (out & Hout & Hrel).
    exists (r :: out). split.
    + simpl. rewrite Hr. cbn [mbind M_bind]. rewrite Hout.
      by rewrite <- app_assoc.
    + by constructor.
Qed.

Lemma github_loop_incomplete (items : list Repo) (results : list Result) :
  Exists (λ repo, ¬ repo_complete repo) items →
  ∃ key, github_loop items results = Raise ("KeyError: " +:+ key)
         ∧ key ∈ ["name"; "description"; "html_url"].
Proof.
  revert results. induction items as [|repo rest IH]; intros results Hex.
  - by apply Exists_nil in Hex.
  - destruct (repo_complete_dec repo) as [Hc|Hc].
    + destruct (github_result_complete repo Hc) as (r & Hr & _).
      apply Exists_cons in Hex as [Hex|Hex]; [done|].
      destruct (IH (results ++ [r]) Hex) as (key & Hkey & Hin).
      exists key. split; [|done]. simpl. by rewrite Hr.
    + destruct (github_result_incomplete repo Hc) as (key & Hkey & Hin).
      exists key. split; [|done]. simpl. by rewrite Hkey.
Qed.

(** X13. The GitHub adapter raises what the request raises and returns
    nothing when the answer has no ['items'].  When every entry has its
    three keys it returns one result per entry, in order, with the name as
    title, the url as link and the description, or the empty string for
    [null].  When one entry lacks a key it raises [KeyError] and returns
    none of the entries, so GitHub then contributes nothing to
    [aggregate_scrape]. *)
Theorem scrape_github_all_or_nothing w query limit :
  (∀ e, requests_get_json w (github_url query limit) = Raise e →
        scrape_github w query limit = Raise e)
  ∧ (requests_get_json w (github_url query limit) = Return None →
     scrape_github w query limit = Return [])
  ∧ (∀ items,
       requests_get_json w (github_url query limit) = Return (Some items) →
       (Forall repo_complete items →
        ∃ out,
          scrape_github w query limit = Return out
          ∧ Forall2 (λ repo r,
               name repo = Some (title r)
               ∧ html_url repo = Some (link r)
               ∧ description r
                 = default "" (default None (repo_description repo))
               ∧ source r = "GitHub") items out)
       ∧ (Exists (λ repo, ¬ repo_complete repo) items →
          (∃ key, scrape_github w query limit = Raise ("KeyError: " +:+ key)
                  ∧ key ∈ ["name"; "description"; "html_url"])
          ∧ contribution (Some (λ q, scrape_github w q limit)) query = [])).
Proof.
  unfold scrape_github, contribution. split_and!.
  - by intros e ->.
  - by intros ->.
  - intros items ->. cbn [mbind M_bind default from_option].
    change (Datatypes.id items) with items. split.
    + intros Hall. destruct (github_loop_complete items [] Hall)
        as (out & Hout & Hrel).
      exists out. by rewrite Hout.
    + intros Hex. destruct (github_loop_incomplete items [] Hex)
        as (key & Hkey & Hin).
      rewrite Hkey. split; [by exists key | done].
Qed.

Lemma scrape_github_all_or_nothing_witness :
  ((∃ key, scrape_github missing_key_world "gold" 5
           = Raise ("KeyError: " +:+ key)
           ∧ key ∈ ["name"; "description"; "html_url"])
   ∧ contribution (Some (λ q, scrape_github missing_key_world q 5)) "gold"
     = [])
  ∧ ∃ out, scrape_github same_name_world "gold" 5 = Return out
           ∧ length out = 2%nat.
Proof.
  split.
  - eapply (scrape_github_all_or_nothing missing_key_world "gold" 5).
    + reflexivity.
    + apply Exists_cons. right. apply Exists_cons. left.
      intros (_ & _ & Hu). by apply is_Some_None in Hu.
  - destruct (scrape_github_all_or_nothing same_name_world "gold" 5)
      as (_ & _ & Hitems).
    destruct (Hitems _ eq_refl) as [Hok _].
    destruct Hok as (out & Hout & Hrel).
    + repeat constructor; by eexists.
    + exists out. split; [done|]. symmetry. by apply (Forall2_length _ _ _ Hrel).
Defined.








End MissingKeys.

(** ** The Reddit adapter *)

Section RedditMore.

Implicit Types (w : World) (query : string) (limit : nat).

Lemma reddit_inner_eq (submissions : list Submission)
    (results : list Result) :
  reddit_inner submissions results
  = results
    ++ (reddit_result <$> List.filter (λ s, negb (stickied s)) submissions).
Proof.
  revert results.
  induction submissions as [|s rest IH]; intros results; simpl.
  - by rewrite app_nil_r.
  - rewrite IH. destruct (stickied s); simpl; [done|].
    by rewrite <- app_assoc.
Qed.

Lemma reddit_outer_elem (search : string → M (list Submission))
    (sorts : list string) (acc results : list Result) (r : Result) :
  reddit_outer search sorts acc = Return results →
  r ∈ results →
  r ∈ acc
  ∨ ∃ sort submissions submission,
      sort ∈ sorts ∧ search sort = Return submissions
      ∧ submission ∈ submissions ∧ stickied submission = false
      ∧ r = reddit_result submission.
Proof.
  revert acc. induction sorts as [|sort rest IH]; intros acc; simpl.
  - intros [= <-] Hr. by left.
  - destruct (search sort) as [submissions|e] eqn:Hsearch;
      cbn [mbind M_bind]; [|done].
    intros Hout Hr. destruct (IH _ Hout Hr) as [Hacc|Hlater].
    + rewrite reddit_inner_eq in Hacc.
      apply elem_of_app in Hacc as [Hacc|Hnew]; [by left|]. right.
      apply list_elem_of_fmap in Hnew as (s & -> & Hs).
      apply list_elem_of_In, filter_In in Hs as [Hs Hst].
      exists sort, submissions, s. split_and!; try done.
      * by left.
      * by apply list_elem_of_In.
      * by destruct (stickied s).
    + right. destruct Hlater as (sort' & subs & s & Hin & Hrest).
      exists sort', subs, s. split; [by right | done].
Qed.

Lemma reddit_outer_returns (search : string → M (list Submission))
    (sorts : list string) (acc : list Result) :
  (∃ results, reddit_outer search sorts acc = Return results)
  ↔ ∀ sort, sort ∈ sorts → ∃ submissions, search sort = Return submissions.
Proof.
  revert acc. induction sorts as [|sort rest IH]; intros acc; simpl.
  - split; [intros _ sort Hin; by apply elem_of_nil in Hin | by eexists].
  - destruct (search sort) as [submissions|e] eqn:Hsearch;
      cbn [mbind M_bind].
    + rewrite IH. split.
      * intros Hall sort' [->|Hin]%elem_of_cons; [by eexists | by apply Hall].
      * intros Hall sort' Hin. apply Hall. by right.
    + split; [by intros [? ?]|].
      intros Hall. destruct (Hall sort) as [subs Hsubs]; [by left|].
      congruence.
Qed.

(** X15. What the Reddit adapter returns is never longer than [limit],
    and each result in it was made from a submission that one of the four
    searches returned and that is not stickied; its source is Reddit. *)
Theorem scrape_reddit_output w query limit (out : list Result) :
  scrape_reddit w query limit = Return out →
  (length out ≤ limit)%nat
  ∧ ∀ r, r ∈ out →
      source r = "Reddit"
      ∧ ∃ sort submissions submission,
          sort ∈ reddit_sorts
          ∧ reddit_search w query sort limit = Return submissions
          ∧ submission ∈ submissions
          ∧ stickied submission = false
          ∧ r = reddit_result submission.
Proof.
  unfold scrape_reddit.
  destruct (reddit_outer _ _ _) as [results|e] eqn:Houter;
    cbn [mbind M_bind]; [|done].
  intros [= <-]. split.
  - rewrite length_take. lia.
  - intros r Hr.
    assert (Hin : r ∈ results).
    { eapply elem_of_sublist; [apply Hr|].
      etrans; [apply sublist_take | apply dedup_loop_sublist]. }
    destruct (reddit_outer_elem _ _ _ _ r Houter Hin) as [Hnil|Hfrom];
      [by apply elem_of_nil in Hnil|].
    split; [|done].
    by destruct Hfrom as (_ & _ & s & _ & _ & _ & _ & ->).
Qed.

Lemma scrape_reddit_output_witness :
  let out := [ mkResult "Gold" "Gold" "https://reddit.com/r/gold" "Reddit" ] in
  (length out ≤ 30)%nat
  ∧ ∀ r, r ∈ out →
      source r = "Reddit"
      ∧ ∃ sort submissions submission,
          sort ∈ reddit_sorts
          ∧ reddit_search pinned_world "gold" sort 30 = Return submissions
          ∧ submission ∈ submissions
          ∧ stickied submission = false
          ∧ r = reddit_result submission.
Proof.
  intros out. apply (scrape_reddit_output pinned_world "gold" 30 out).
  by vm_compute.
Defined.

(** X16. The Reddit adapter returns exactly when all four searches
    return.  When one of them raises, the adapter raises, the results of
    the other searches are lost, and Reddit contributes nothing to
    [aggregate_scrape]. *)
Theorem scrape_reddit_needs_all_searches w query limit :
  ((∃ out, scrape_reddit w query limit = Return out)
   ↔ ∀ sort, sort ∈ reddit_sorts →
             ∃ submissions, reddit_search w query sort limit
                            = Return submissions)
  ∧ (∀ sort e,
       sort ∈ reddit_sorts →
       reddit_search w query sort limit = Raise e →
       (∃ e', scrape_reddit w query limit = Raise e')
       ∧ contribution (Some (λ q, scrape_reddit w q limit)) query = []).
Proof.
  assert (Hiff : (∃ out, scrape_reddit w query limit = Return out)
    ↔ ∀ sort, sort ∈ reddit_sorts →
              ∃ submissions, reddit_search w query sort limit
                             = Return submissions).
  { rewrite <- (reddit_outer_returns
                  (λ sort, reddit_search w query sort limit) reddit_sorts []).
    unfold scrape_reddit, reddit_sorts.
    destruct (reddit_outer _ _ _) as [results|e]; cbn [mbind M_bind].
    - split; intros _; by eexists.
    - split; by intros [? ?]. }
  split; [done|].
  intros sort e Hin Hraise.
  assert (Hno : ¬ ∃ out, scrape_reddit w query limit = Return out).
  { rewrite Hiff. intros Hall. destruct (Hall sort Hin) as [subs Hsubs].
    congruence. }
  unfold contribution.
  destruct (scrape_reddit w query limit) as [out|e'].
  - destruct Hno. by exists out.
  - split; [by exists e' | done].
Qed.

Lemma scrape_reddit_needs_all_searches_witness :
  ((∃ e', scrape_reddit hot_down_world "gold" 30 = Raise e')
   ∧ contribution (Some (λ q, scrape_reddit hot_down_world q 30)) "gold" = [])
  ∧ ∃ out, scrape_reddit pinned_world "gold" 30 = Return out.
Proof.
  split.
  - apply (scrape_reddit_needs_all_searches hot_down_world "gold" 30
             : _ ∧ _) with (sort := "hot") (e := "503").
    + unfold reddit_sorts. rewrite !elem_of_cons. right. right. by left.
    + reflexivity.
  - apply (scrape_reddit_needs_all_searches pinned_world "gold" 30).
    intros sort _. by eexists.
Defined.

Lemma dedup_loop_fixed (results : list Result) (seen : gset string) :
  NoDup (title <$> results) →
  (∀ r, r ∈ results → title r ∉ seen) →
  dedup_loop results seen [] = results.
Proof.
  revert seen. induction results as [|r rest IH]; intros seen Hnd Hseen.
  - done.
  - rewrite dedup_loop_cons, decide_False by (apply Hseen; by left).
    rewrite fmap_cons in Hnd. apply NoDup_cons in Hnd as [Hnotin Hnd].
    f_equal. apply IH; [done|].
    intros r' Hr' [Heq%elem_of_singleton|Hin]%elem_of_union.
    + apply Hnotin. rewrite <- Heq. apply list_elem_of_fmap. by exists r'.
    + apply (Hseen r'); [by right | done].
Qed.

(** X17. The deduplication of the Reddit adapter leaves a list as it is
    exactly when no title repeats in it; so running it a second time
    changes nothing. *)
Theorem dedup_loop_idempotent (results : list Result) :
  (dedup_loop results ∅ [] = results ↔ NoDup (title <$> results))
  ∧ dedup_loop (dedup_loop results ∅ []) ∅ [] = dedup_loop results ∅ [].
Proof.
  assert (Hfix : ∀ l, NoDup (title <$> l) → dedup_loop l ∅ [] = l).
  { intros l Hnd. apply dedup_loop_fixed; [done|].
    intros r _. apply not_elem_of_empty. }
  split.
  - split; [|apply Hfix].
    intros Heq. rewrite <- Heq. apply dedup_loop_NoDup.
  - apply Hfix, dedup_loop_NoDup.
Qed.

Lemma dedup_loop_idempotent_witness :
  let a := mkResult "A" "A" "https://reddit.com/r/a" "Reddit" in
  let b := mkResult "B" "B" "https://reddit.com/r/b1" "Reddit" in
  dedup_loop [a; b] ∅ [] = [a; b].
Proof.
  intros a b. apply (proj2 (proj1 (dedup_loop_idempotent [a; b]))).
  apply (bool_decide_unpack _). by vm_compute.
Defined.

End RedditMore.

(** ** The aggregation over the five adapters of the repository *)

Section AggregateMore.

Implicit Types (w : World) (query : string) (limit : nat).

Lemma github_loop_source (items : list Repo) (results out : list Result) :
  github_loop items results = Return out →
  Forall (λ r, source r = "GitHub") results →
  Forall (λ r, source r = "GitHub") out.
Proof.
  revert results. induction items as [|repo rest IH]; intros results; simpl.
  - by intros [= <-].
  - destruct (github_result repo) as [r|e] eqn:Hr; cbn [mbind M_bind]; [|done].
    intros Hout Hacc. apply (IH _ Hout). apply Forall_app. split; [done|].
    apply Forall_singleton.
    destruct repo as [[n|] [d|] [u|]]; cbn in Hr; by simplify_eq.
Qed.

Lemma youtube_loop_source (items : list Item) (results out : list Result) :
  youtube_loop items results = Return out →
  Forall (λ r, source r = "YouTube") results →
  Forall (λ r, source r = "YouTube") out.
Proof.
  revert results. induction items as [|item rest IH]; intros results; simpl.
  - by intros [= <-].
  - destruct (youtube_result item) as [r|e] eqn:Hr; cbn [mbind M_bind];
      [|done].
    intros Hout Hacc. apply (IH _ Hout). apply Forall_app. split; [done|].
    apply Forall_singleton.
    destruct item as [[t|] [d|] [v|]]; cbn in Hr; by simplify_eq.
Qed.

Lemma contribution_sources w (i : Imports) query (r : Result) :
  let g := import_scrapers w i in
  (r ∈ contribution (imported_reddit g) query → source r = "Reddit")
  ∧ (r ∈ contribution (imported_twitter g) query → source r = "Twitter/X")
  ∧ (r ∈ contribution (imported_github g) query → source r = "GitHub")
  ∧ (r ∈ contribution (imported_etsy g) query → source r = "Etsy")
  ∧ (r ∈ contribution (imported_youtube g) query → source r = "YouTube").
Proof.
  unfold import_scrapers, contribution.
  cbn [imported_reddit imported_twitter imported_github imported_etsy
       imported_youtube]. split_and!.
  - destruct (reddit_imported i); cbv beta iota; [|by intros ?%elem_of_nil].
    destruct (scrape_reddit w query 30) as [out|e] eqn:Hout;
      [|by intros ?%elem_of_nil].
    intros Hr. by apply (scrape_reddit_output _ _ _ _ Hout).
  - destruct (twitter_imported i); cbv beta iota; [|by intros ?%elem_of_nil].
    unfold scrape_twitter.
    destruct (search_recent_tweets w query 5) as [tweets|e];
      cbn [mbind M_bind]; [|by intros ?%elem_of_nil].
    rewrite twitter_loop_eq, app_nil_l.
    by intros (tweet & -> & _)%list_elem_of_fmap.
  - destruct (github_imported i); cbv beta iota; [|by intros ?%elem_of_nil].
    unfold scrape_github.
    destruct (requests_get_json w _) as [items|e];
      cbn [mbind M_bind]; [|by intros ?%elem_of_nil].
    destruct (github_loop _ _) as [out|e] eqn:Hout;
      [|by intros ?%elem_of_nil].
    intros Hr. pose proof (github_loop_source _ _ _ Hout (Forall_nil_2 _)) as Hall.
    by apply (proj1 (Forall_forall _ _) Hall).
  - destruct (etsy_imported i); cbv beta iota; [|by intros ?%elem_of_nil].
    cbn. by intros ->%list_elem_of_singleton.
  - destruct (youtube_imported i); cbv beta iota; [|by intros ?%elem_of_nil].
    unfold scrape_youtube.
    destruct (youtube_search w query 5) as [items|e];
      cbn [mbind M_bind]; [|by intros ?%elem_of_nil].
    destruct (youtube_loop _ _) as [out|e] eqn:Hout;
      [|by intros ?%elem_of_nil].
    intros Hr. pose proof (youtube_loop_source _ _ _ Hout (Forall_nil_2 _)) as Hall.
    by apply (proj1 (Forall_forall _ _) Hall).
Qed.

(** X18. Whatever the network answers and whichever imports succeeded,
    every result of [aggregate_scrape] names one of the five adapters as
    its source, and the results come grouped by source in the order
    Reddit, Twitter/X, GitHub, Etsy, YouTube. *)
Theorem aggregate_scrape_sources w (i : Imports) query
    (results : list Result) (err : list string) :
  aggregate_scrape (import_scrapers w i) query = Return (results, err) →
  (∀ r, r ∈ results → source r ∈ adapter_sources)
  ∧ source <$> results `sublist_of`
      replicate (length results) "Reddit"
      ++ replicate (length results) "Twitter/X"
      ++ replicate (length results) "GitHub"
      ++ replicate (length results) "Etsy"
      ++ replicate (length results) "YouTube".
Proof.
  rewrite aggregate_scrape_eq. intros [= <- _].
  set (g := import_scrapers w i).
  assert (Hblock : ∀ (l : list Result) (s : string) (n : nat),
    (∀ r, r ∈ l → source r = s) → (length l ≤ n)%nat →
    source <$> l `sublist_of` replicate n s).
  { intros l s n Hall Hlen.
    assert (Heq : source <$> l = replicate (length l) s).
    { clear Hlen. induction l as [|r l IH]; [done|]. simpl. f_equal.
      - apply Hall. by left.
      - apply IH. intros r' Hr'. apply Hall. by right. }
    rewrite Heq. replace n with (length l + (n - length l))%nat by lia.
    rewrite replicate_add. by apply sublist_inserts_r. }
  split.
  - intros r Hr. unfold adapter_sources.
    pose proof (contribution_sources w i query r) as (H1 & H2 & H3 & H4 & H5).
    fold g in H1, H2, H3, H4, H5.
    rewrite !elem_of_app in Hr. rewrite !elem_of_cons.
    destruct Hr as [Hr|[Hr|[Hr|[Hr|Hr]]]]; auto 10.
  - rewrite !fmap_app.
    repeat apply sublist_app;
      (apply Hblock; [intros r Hr; by apply (contribution_sources w i query r)
                     | rewrite !length_app; lia]).
Qed.

Lemma aggregate_scrape_sources_witness :
  let results :=
    [ mkResult "prospector" "" "https://github.com/alice/prospector" "GitHub";
      mkResult "prospector" "Gold finder" "https://github.com/bob/prospector"
        "GitHub";
      mkResult "Unique item for gold" "Handmade treasure from Etsy."
        "https://www.etsy.com/search?q=gold" "Etsy" ] in
  Forall (λ r, source r ∈ adapter_sources) results.
Proof.
  intros results. apply Forall_forall.
  apply (aggregate_scrape_sources same_name_world all_imported "gold"
           results []).
  by vm_compute.
Defined.




End AggregateMore.
